(** * main.py and test_main.py: three functions, an entry point, and their tests

    A shallow embedding of [src/main.py] and [src/test_main.py].

    The source is three one-line Python functions,

      def add(a, b):       return a + b
      def multiply(a, b):  return a * b
      def greet(name):     return f"Hello, {name}!"

    and a guarded block that prints three lines.  Python is dynamically
    typed, so what [a + b] does is decided by the run-time classes of [a]
    and [b].  The embedding therefore has two layers:

    - [Py]: the fragment of the Python run time that the source reaches:
      values, exceptions, the binary operators [+] and [*] with their
      dispatch on the operand classes, [str()], formatted string literals,
      [print], [==] and [assert];
    - [main] and [test_main]: the two source files, statement by statement,
      on top of [Py].

    Modelling choices, fixed here once:

    - value universe: [None], [bool], [int] and [str].  [float] (IEEE
      arithmetic), containers and instances of user classes are outside it;
    - [int] is unbounded, as in Python, and is modelled by [Z];
    - [str] is a finite sequence of characters, modelled by [string];
      only concatenation, repetition and comparison are used, and these
      do not look inside a character;
    - the interpreter is CPython (3.11 or later) on a 64-bit build: a
      sequence index is a signed 64-bit number ([maxsize] is
      [sys.maxsize]), and a repetition whose count or whose length does
      not fit one raises [OverflowError];
    - the conversion of an [int] to text is refused with [ValueError] when
      the integer has more decimal digits than the interpreter's limit
      ([sys.get_int_max_str_digits()], 4300 unless changed, 0 for none);
    - a computation runs in a [world] that holds what has been written to
      standard output and the current digit limit, and ends in a value or
      in a raised exception;
    - an allocation that fails for want of memory ([MemoryError]) is a
      fault of the machine, not of the arguments, and is not modelled. *)

From Stdlib Require Import ZArith List String Ascii Lia Bool.
From Stdlib Require Import DecimalString DecimalZ DecimalPos.
Import ListNotations.

Local Open Scope string_scope.
Local Open Scope Z_scope.

(* ===================================================================== *)
(** * The run-time fragment *)
(* ===================================================================== *)

Module Py.

(** Run-time values. *)
Inductive value : Type :=
| VNone : value
| VBool : bool -> value
| VInt  : Z -> value
| VStr  : string -> value.

(** The exceptions that the source and its tests can raise. *)
Inductive exn : Type :=
| TypeError : exn
| ValueError : exn
| OverflowError : exn
| AssertionError : exn.

(** How a computation ends. *)
Inductive outcome (A : Type) : Type :=
| Ok : A -> outcome A
| Raise : exn -> outcome A.

Arguments Ok {A} _.
Arguments Raise {A} _.

(** The state outside the functions: the text written to standard
    output, and the interpreter-wide limit on the number of digits in a
    conversion between [int] and [str] (0 switches the limit off;
    [sys.set_int_max_str_digits] accepts 0 and numbers from 640 on). *)
Record world : Type := mkWorld { stdout : string; int_max_str_digits : Z }.

(** [sys.int_info.default_max_str_digits] and
    [sys.int_info.str_digits_check_threshold]. *)
Definition default_max_str_digits : Z := 4300.
Definition str_digits_check_threshold : Z := 640.

(** A fresh interpreter. *)
Definition initial_world : world := mkWorld "" default_max_str_digits.

(** [sys.maxsize]: the largest sequence index, [2^63 - 1]. *)
Definition maxsize : Z := 2 ^ 63 - 1.

(** Computations: state passing, with the state kept when an exception is
    raised (output already written stays written). *)
Definition M (A : Type) : Type := world -> outcome A * world.

Definition ret {A : Type} (a : A) : M A := fun w => (Ok a, w).

Definition raise {A : Type} (e : exn) : M A := fun w => (Raise e, w).

Definition bind {A B : Type} (m : M A) (k : A -> M B) : M B :=
  fun w =>
    match m w with
    | (Ok a, w') => k a w'
    | (Raise e, w') => (Raise e, w')
    end.

Notation "x <- m ;; k" := (bind m (fun x => k))
  (at level 61, m at next level, right associativity).
Notation "m ;; k" := (bind m (fun _ => k))
  (at level 61, right associativity).

(** [bool] is a subclass of [int]: [True] counts as 1 and [False] as 0
    wherever an integer is expected. *)
Definition as_int (v : value) : option Z :=
  match v with
  | VInt z => Some z
  | VBool true => Some 1
  | VBool false => Some 0
  | _ => None
  end.

Definition is_numeric (v : value) : bool :=
  match as_int v with Some _ => true | None => false end.

Definition is_str (v : value) : bool :=
  match v with VStr _ => true | _ => false end.

(** [n] copies of [s], one after the other. *)
Fixpoint repeat_str (s : string) (n : nat) : string :=
  match n with
  | O => ""
  | S n' => s ++ repeat_str s n'
  end.

(** The repetition count as a sequence index: an integer outside the
    signed 64-bit range raises [OverflowError] (it is not clipped). *)
Definition as_index (k : Z) : M Z :=
  if (- maxsize - 1 <=? k) && (k <=? maxsize)
  then ret k
  else raise OverflowError.

(** Repetition of a string by an index: a count below 1 gives the empty
    string, the count 1 the string itself; otherwise the length of the
    result must fit an index, or [OverflowError] is raised. *)
Definition unicode_repeat (s : string) (count : Z) : M value :=
  if count <? 1 then ret (VStr "")
  else if count =? 1 then ret (VStr s)
  else if maxsize / count <? Z.of_nat (String.length s)
       then raise OverflowError
       else ret (VStr (repeat_str s (Z.to_nat count))).

(** Sequence repetition [s * k] and [k * s]. *)
Definition sequence_repeat (s : string) (k : Z) : M value :=
  count <- as_index k ;;
  unicode_repeat s count.

(** The binary operator [+].
    Two integers (booleans included) are added; two strings are
    concatenated; every other pair of classes has no implementation of the
    operator and the interpreter raises [TypeError]. *)
Definition binary_add (a b : value) : M value :=
  match as_int a, as_int b with
  | Some x, Some y => ret (VInt (x + y))
  | _, _ =>
      match a, b with
      | VStr s, VStr t => ret (VStr (s ++ t))
      | _, _ => raise TypeError
      end
  end.

(** The binary operator [*].
    Two integers are multiplied; a string and an integer, in either order,
    go to the repetition of the string; every other pair raises
    [TypeError]. *)
Definition binary_mul (a b : value) : M value :=
  match as_int a, as_int b with
  | Some x, Some y => ret (VInt (x * y))
  | _, _ =>
      match a, as_int b with
      | VStr s, Some k => sequence_repeat s k
      | _, _ =>
          match as_int a, b with
          | Some k, VStr s => sequence_repeat s k
          | _, _ => raise TypeError
          end
      end
  end.

(** The text of a value: decimal digits with a leading minus sign for
    integers, the words [True], [False] and [None], and a string itself. *)
Definition str (v : value) : string :=
  match v with
  | VNone => "None"
  | VBool true => "True"
  | VBool false => "False"
  | VInt z => NilZero.string_of_int (Z.to_int z)
  | VStr s => s
  end.

(** Whether an integer may be converted to text under the digit limit:
    the conversion is refused when the text (sign included) is longer than
    the check threshold, a limit is set, and the digits (sign excluded)
    are more than the limit. *)
Definition int_str_allowed (limit z : Z) : bool :=
  let strlen := Z.of_nat (String.length (str (VInt z))) in
  let strlen_nosign := if z <? 0 then strlen - 1 else strlen in
  negb ((str_digits_check_threshold <? strlen)
        && (0 <? limit) && (limit <? strlen_nosign)).

(** Only the conversion of an [int] looks at the limit ([bool] has its
    own [str()], which gives a word). *)
Definition str_allowed (limit : Z) (v : value) : bool :=
  match v with
  | VInt z => int_str_allowed limit z
  | _ => true
  end.

(** [str(v)]: the text of the value; for an integer that the digit limit
    refuses, [ValueError]. *)
Definition builtin_str (v : value) : M string :=
  fun w =>
    if str_allowed (int_max_str_digits w) v
    then (Ok (str v), w)
    else (Raise ValueError, w).

(** A replacement field [{e}] with no conversion and no format
    specification: [format(v, "")], which for the classes of the universe
    is [str(v)]. *)
Definition format_value (v : value) : M string := builtin_str v.

(** The parts of a formatted string literal: literal text, and replacement
    fields holding an expression still to be evaluated. *)
Inductive fpart : Type :=
| FLit : string -> fpart
| FExpr : M value -> fpart.

(** Evaluation of a formatted string literal: the parts from left to
    right, each expression evaluated and formatted where it stands. *)
Fixpoint joined_str (parts : list fpart) : M string :=
  match parts with
  | [] => ret ""
  | FLit s :: rest =>
      tl <- joined_str rest ;;
      ret (s ++ tl)
  | FExpr e :: rest =>
      v <- e ;;
      s <- format_value v ;;
      tl <- joined_str rest ;;
      ret (s ++ tl)
  end.

Definition fstring (parts : list fpart) : M value :=
  s <- joined_str parts ;;
  ret (VStr s).

(** The line terminator. *)
Definition newline : string := String (ascii_of_nat 10) "".

(** Writing text to standard output; the digit limit is left as it is. *)
Definition write (t : string) : M value :=
  fun w => (Ok VNone, mkWorld (stdout w ++ t) (int_max_str_digits w)).

(** [print(v)]: writes [str(v)] and a line terminator to standard output. *)
Definition builtin_print (v : value) : M value :=
  s <- builtin_str v ;;
  write (s ++ newline).

(** [a == b]: integers and booleans compare by number, strings by
    content, [None] equals only itself, and values of unrelated classes
    are unequal. *)
Definition eq_value (a b : value) : bool :=
  match as_int a, as_int b with
  | Some x, Some y => Z.eqb x y
  | _, _ =>
      match a, b with
      | VStr s, VStr t => String.eqb s t
      | VNone, VNone => true
      | _, _ => false
      end
  end.

(** The statement [assert e]. *)
Definition assert_ (e : M bool) : M unit :=
  b <- e ;;
  if b then ret tt else raise AssertionError.

(** A computation that reads nothing from the world and leaves it as it
    was: one outcome for every world, and the world handed back. *)
Definition pure {A : Type} (m : M A) : Prop :=
  exists r : outcome A, forall w : world, m w = (r, w).

(** A computation that leaves the world as it was and reads at most the
    digit limit from it. *)
Definition reads_limit_only {A : Type} (m : M A) : Prop :=
  exists f : Z -> outcome A,
    forall w : world, m w = (f (int_max_str_digits w), w).

(** The status with which the interpreter leaves after running a script:
    0 when the script ran to its end, 1 when an exception reached the top
    level. *)
Definition exit_code {A : Type} (r : outcome A) : Z :=
  match r with
  | Ok _ => 0
  | Raise _ => 1
  end.

(** The lines of a text: the pieces that end in a line terminator, and a
    last piece when the text does not end in one. *)
Fixpoint lines_from (cur : string) (s : string) : list string :=
  match s with
  | EmptyString =>
      match cur with
      | EmptyString => []
      | _ => [cur]
      end
  | String c s' =>
      if Ascii.eqb c (ascii_of_nat 10)
      then cur :: lines_from "" s'
      else lines_from (cur ++ String c "") s'
  end.

Definition lines (s : string) : list string := lines_from "" s.

End Py.

Import Py.

(* ===================================================================== *)
(** * src/main.py *)
(* ===================================================================== *)

Module main.

(** [def add(a, b): return a + b] *)
Definition add (a b : value) : M value := binary_add a b.

(** [def multiply(a, b): return a * b] *)
Definition multiply (a b : value) : M value := binary_mul a b.

(** [def greet(name): return f"Hello, {name}!"] *)
Definition greet (name : value) : M value :=
  fstring [FLit "Hello, "; FExpr (ret name); FLit "!"].

(** The block under [if __name__ == "__main__":], three [print] calls. *)
Definition main_block : M unit :=
  (x <- greet (VStr "World") ;; builtin_print x) ;;
  (x <- fstring [FLit "2 + 3 = "; FExpr (add (VInt 2) (VInt 3))] ;;
   builtin_print x) ;;
  (x <- fstring [FLit "4 * 5 = "; FExpr (multiply (VInt 4) (VInt 5))] ;;
   builtin_print x) ;;
  ret tt.

(** Execution of the module with [__name__] bound to [name].  The three
    [def] statements only bind names; the block runs when the module is
    the script. *)
Definition run_module (name : string) : M unit :=
  if String.eqb name "__main__" then main_block else ret tt.

(** Running the file directly: a fresh process, [__name__] is
    ["__main__"]; the result is the text on standard output and the exit
    status. *)
Definition run_directly : string * Z :=
  let '(r, w) := run_module "__main__" initial_world in
  (stdout w, exit_code r).

End main.

(* ===================================================================== *)
(** * src/test_main.py *)
(* ===================================================================== *)

Module test_main.

Import main.

(** [assert f(args) == expected] *)
Definition assert_eq (call : M value) (expected : value) : M unit :=
  assert_ (v <- call ;; ret (eq_value v expected)).

Definition test_add : M unit :=
  assert_eq (add (VInt 2) (VInt 3)) (VInt 5) ;;
  assert_eq (add (VInt (-1)) (VInt 1)) (VInt 0) ;;
  assert_eq (add (VInt 0) (VInt 0)) (VInt 0).

Definition test_multiply : M unit :=
  assert_eq (multiply (VInt 2) (VInt 3)) (VInt 6) ;;
  assert_eq (multiply (VInt (-2)) (VInt 3)) (VInt (-6)) ;;
  assert_eq (multiply (VInt 0) (VInt 5)) (VInt 0).

Definition test_greet : M unit :=
  assert_eq (greet (VStr "Alice")) (VStr "Hello, Alice!") ;;
  assert_eq (greet (VStr "Bob")) (VStr "Hello, Bob!").

End test_main.

Import main.


(* ===================================================================== *)
(** * Facts about the run-time fragment *)
(* ===================================================================== *)

Lemma bind_ret_l {A B : Type} (a : A) (k : A -> M B) (w : world) :
  bind (ret a) k w = k a w.
Proof. reflexivity. Qed.

Lemma bind_raise_l {A B : Type} (e : exn) (k : A -> M B) (w : world) :
  bind (raise e) k w = (Raise e, w).
Proof. reflexivity. Qed.

Lemma bind_assoc {A B C : Type} (m : M A) (k : A -> M B) (h : B -> M C)
  (w : world) :
  bind (bind m k) h w = bind m (fun a => bind (k a) h) w.
Proof.
  unfold bind. destruct (m w) as [[a | e] w']; reflexivity.
Qed.

Lemma pure_ret {A : Type} (a : A) : pure (ret a).
Proof. exists (Ok a). reflexivity. Qed.

Lemma pure_raise {A : Type} (e : exn) : pure (@raise A e).
Proof. exists (Raise e). reflexivity. Qed.

Lemma pure_bind {A B : Type} (m : M A) (k : A -> M B) :
  pure m -> (forall a, pure (k a)) -> pure (bind m k).
Proof.
  intros [r Hm] Hk. destruct r as [a | e].
  - destruct (Hk a) as [r' Hka]. exists r'. intro w.
    unfold bind. rewrite Hm. apply Hka.
  - exists (Raise e). intro w. unfold bind. rewrite Hm. reflexivity.
Qed.

(** A pure computation gives the same outcome in any two worlds. *)
Lemma pure_same_outcome {A : Type} (m : M A) (w1 w2 : world) :
  pure m -> fst (m w1) = fst (m w2).
Proof. intros [r Hm]. rewrite !Hm. reflexivity. Qed.

Lemma pure_same_world {A : Type} (m : M A) (w : world) :
  pure m -> snd (m w) = w.
Proof. intros [r Hm]. rewrite Hm. reflexivity. Qed.

Lemma pure_binary_add (a b : value) : pure (binary_add a b).
Proof.
  unfold binary_add.
  destruct (as_int a), (as_int b), a, b;
    first [apply pure_ret | apply pure_raise].
Qed.

Lemma pure_sequence_repeat (s : string) (k : Z) : pure (sequence_repeat s k).
Proof.
  unfold sequence_repeat, as_index, unicode_repeat.
  destruct ((- maxsize - 1 <=? k) && (k <=? maxsize));
    [| apply pure_raise].
  apply pure_bind; [apply pure_ret | intro c].
  destruct (c <? 1); [apply pure_ret |].
  destruct (c =? 1); [apply pure_ret |].
  destruct (maxsize / c <? Z.of_nat (String.length s));
    [apply pure_raise | apply pure_ret].
Qed.

Lemma pure_binary_mul (a b : value) : pure (binary_mul a b).
Proof.
  unfold binary_mul.
  destruct a as [| [|] | x | s], b as [| [|] | y | t]; cbn [as_int];
    first [apply pure_ret | apply pure_raise | apply pure_sequence_repeat].
Qed.

(** What reads only the digit limit: every pure computation, [str()],
    and what is put together from such computations. *)
Lemma reads_limit_only_pure {A : Type} (m : M A) :
  pure m -> reads_limit_only m.
Proof. intros [r Hm]. exists (fun _ => r). exact Hm. Qed.

Lemma reads_limit_only_bind {A B : Type} (m : M A) (k : A -> M B) :
  reads_limit_only m -> (forall a, reads_limit_only (k a)) ->
  reads_limit_only (bind m k).
Proof.
  intros [f Hm] Hk.
  exists (fun l => match f l with
                   | Ok a => fst (k a (mkWorld "" l))
                   | Raise e => Raise e
                   end).
  intro w. unfold bind. rewrite Hm.
  destruct (f (int_max_str_digits w)) as [a | e]; [| reflexivity].
  destruct (Hk a) as [g Hg]. rewrite !Hg. reflexivity.
Qed.

Lemma reads_limit_only_builtin_str (v : value) :
  reads_limit_only (builtin_str v).
Proof.
  exists (fun l => if str_allowed l v then Ok (str v) else Raise ValueError).
  intro w. unfold builtin_str.
  destruct (str_allowed (int_max_str_digits w) v); reflexivity.
Qed.

Lemma reads_limit_only_joined_str (parts : list fpart) :
  Forall (fun p => match p with
                   | FLit _ => True
                   | FExpr e => reads_limit_only e
                   end) parts ->
  reads_limit_only (joined_str parts).
Proof.
  induction 1 as [| p rest Hp _ IH]; cbn [joined_str].
  - apply reads_limit_only_pure, pure_ret.
  - destruct p as [s | e].
    + apply reads_limit_only_bind; [exact IH |].
      intro; apply reads_limit_only_pure, pure_ret.
    + apply reads_limit_only_bind; [exact Hp | intro v].
      apply reads_limit_only_bind;
        [apply reads_limit_only_builtin_str | intro s].
      apply reads_limit_only_bind; [exact IH |].
      intro; apply reads_limit_only_pure, pure_ret.
Qed.

Lemma app_empty_r (s : string) : s ++ "" = s.
Proof.
  induction s as [| c s IH]; cbn; [reflexivity | now rewrite IH].
Qed.

Lemma length_app (s t : string) :
  String.length (s ++ t) = (String.length s + String.length t)%nat.
Proof.
  induction s as [| c s IH]; cbn; [reflexivity | now rewrite IH].
Qed.

(** [print] is not pure: it always lengthens standard output. *)
Lemma builtin_print_not_pure (s : string) : ~ pure (builtin_print (VStr s)).
Proof.
  intros [r H]. specialize (H initial_world).
  unfold builtin_print, bind, builtin_str, write, initial_world in H.
  cbn in H. injection H as _ H. apply (f_equal String.length) in H.
  rewrite length_app in H. cbn in H. lia.
Qed.

(** Repetition written with the library's [concat] and [repeat]. *)
Lemma repeat_str_concat (s : string) (n : nat) :
  repeat_str s n = String.concat "" (List.repeat s n).
Proof.
  induction n as [| n IH]; [reflexivity |].
  cbn [repeat_str]. rewrite IH.
  destruct n as [| n]; [apply app_empty_r | reflexivity].
Qed.

Lemma length_repeat_str (s : string) (n : nat) :
  String.length (repeat_str s n) = (n * String.length s)%nat.
Proof.
  induction n as [| n IH]; cbn; [reflexivity |].
  now rewrite length_app, IH.
Qed.

(** The decimal text of an integer reads back as that integer, so two
    different integers never print alike. *)
Lemma str_int_reads_back (z : Z) :
  option_map Z.of_int (NilZero.int_of_string (str (VInt z))) = Some z.
Proof.
  cbn [str]. rewrite NilZero.isi.
  - cbn. now rewrite DecimalZ.of_to.
  - destruct z as [| p | p]; cbn; try discriminate.
    intro H. injection H as H. exact (DecimalPos.Unsigned.to_uint_nonnil p H).
  - destruct z as [| p | p]; cbn; try discriminate.
    intro H. injection H as H. exact (DecimalPos.Unsigned.to_uint_nonnil p H).
Qed.

(** What [greet] does with any value in any world. *)
Lemma greet_run (v : value) (w : world) :
  greet v w =
    (if str_allowed (int_max_str_digits w) v
     then Ok (VStr ("Hello, " ++ str v ++ "!"))
     else Raise ValueError, w).
Proof.
  unfold greet, fstring. cbn [joined_str].
  unfold bind, format_value, builtin_str, ret.
  destruct (str_allowed (int_max_str_digits w) v); reflexivity.
Qed.

(** The tests of [test_main.py] pass and print nothing. *)
Lemma test_add_passes (w : world) : test_main.test_add w = (Ok tt, w).
Proof. reflexivity. Qed.

Lemma test_multiply_passes (w : world) :
  test_main.test_multiply w = (Ok tt, w).
Proof. reflexivity. Qed.

Lemma test_greet_passes (w : world) : test_main.test_greet w = (Ok tt, w).
Proof. reflexivity. Qed.

(** Imported as a library, the module prints nothing. *)
Lemma run_module_imported (w : world) : run_module "main" w = (Ok tt, w).
Proof. reflexivity. Qed.

(* ===================================================================== *)
(** * The functions on integers *)
(* ===================================================================== *)

Section OnIntegers.

Variables a b : Z.
Variable w : world.

(** C1: for all integers [a] and [b], [add(a, b)] returns the sum
    [a + b]; the call raises nothing and writes nothing. *)
Theorem add_int_sum : add (VInt a) (VInt b) w = (Ok (VInt (a + b)), w).
Proof. reflexivity. Qed.

(** C2: for all integers [a] and [b], [multiply(a, b)] returns the
    product [a * b]; the call raises nothing and writes nothing. *)
Theorem multiply_int_product :
  multiply (VInt a) (VInt b) w = (Ok (VInt (a * b)), w).
Proof. reflexivity. Qed.

(** C8: on integers [add] and [multiply] are commutative: the two calls
    with the arguments exchanged end alike, and comparing their results
    with [==] gives [True]. *)
Theorem add_multiply_int_comm :
  add (VInt a) (VInt b) w = add (VInt b) (VInt a) w /\
  multiply (VInt a) (VInt b) w = multiply (VInt b) (VInt a) w /\
  (x <- add (VInt a) (VInt b) ;; y <- add (VInt b) (VInt a) ;;
   ret (eq_value x y)) w = (Ok true, w) /\
  (x <- multiply (VInt a) (VInt b) ;; y <- multiply (VInt b) (VInt a) ;;
   ret (eq_value x y)) w = (Ok true, w).
Proof.
  unfold add, multiply, bind; cbn.
  rewrite (Z.add_comm b a), (Z.mul_comm b a), !Z.eqb_refl.
  repeat split.
Qed.

(** C9: 0 is a neutral element of [add] on both sides, and
    [multiply(0, b)] is 0 for every integer [b]. *)
Theorem add_zero_multiply_zero :
  add (VInt a) (VInt 0) w = (Ok (VInt a), w) /\
  add (VInt 0) (VInt a) w = (Ok (VInt a), w) /\
  multiply (VInt 0) (VInt b) w = (Ok (VInt 0), w).
Proof.
  unfold add, multiply; cbn. rewrite Z.add_0_r. repeat split.
Qed.

End OnIntegers.

(* ===================================================================== *)
(** * greet *)
(* ===================================================================== *)

(** C3: for every string [n], [greet(n)] returns exactly
    ["Hello, " + n + "!"]: the name stands in the result as it was given,
    and the result is what concatenating the three pieces with the
    operator [+] gives. *)
Theorem greet_str (n : string) (w : world) :
  greet (VStr n) w = (Ok (VStr ("Hello, " ++ n ++ "!")), w) /\
  greet (VStr n) w =
    (x <- add (VStr "Hello, ") (VStr n) ;; add x (VStr "!")) w.
Proof.
  split; [reflexivity |].
  unfold greet, fstring, add, bind; cbn. reflexivity.
Qed.

(** C7, as the code has it: [greet] applied to a value that is not a
    string never raises a type error.  For [None] and a [bool] it returns
    ["Hello, "], the value's text and ["!"]; for the integer 42 this is
    ["Hello, 42!"], whatever the digit limit.  For an integer in general
    it returns that string when the digit limit allows the conversion and
    raises [ValueError] when it does not; the conversion is always allowed
    when no limit is set and when the text has at most 640 characters. *)
Theorem greet_non_string_value (v : value) (z : Z) (b : bool) (w : world) :
  greet VNone w = (Ok (VStr "Hello, None!"), w) /\
  greet (VBool b) w = (Ok (VStr ("Hello, " ++ str (VBool b) ++ "!")), w) /\
  greet (VInt 42) w = (Ok (VStr "Hello, 42!"), w) /\
  greet (VInt (-7)) w = (Ok (VStr "Hello, -7!"), w) /\
  greet (VInt z) w =
    (if int_str_allowed (int_max_str_digits w) z
     then Ok (VStr ("Hello, " ++ str (VInt z) ++ "!"))
     else Raise ValueError, w) /\
  fst (greet v w) <> Raise TypeError /\
  int_str_allowed 0 z = true /\
  (Z.of_nat (String.length (str (VInt z))) <= str_digits_check_threshold ->
   int_str_allowed (int_max_str_digits w) z = true).
Proof.
  repeat (split; [reflexivity |]).
  split; [| split; [| split]].
  - apply greet_run.
  - rewrite greet_run.
    destruct (str_allowed (int_max_str_digits w) v); cbn; discriminate.
  - unfold int_str_allowed. cbn [Z.ltb Z.compare andb].
    now rewrite andb_false_r.
  - intro H. unfold int_str_allowed.
    apply Z.ltb_ge in H. now rewrite H.
Qed.

(** C7, as the claim states it, fails: the integer [10 ** 4300] has 4301
    digits, one more than a fresh interpreter converts, and [greet] of it
    returns no string: it raises [ValueError]. *)
Lemma greet_huge_int_raises :
  greet (VInt (10 ^ 4300)) initial_world = (Raise ValueError, initial_world).
Proof. vm_compute. reflexivity. Qed.

(* ===================================================================== *)
(** * The entry point *)
(* ===================================================================== *)

(** C4: run directly, the module writes exactly three lines, in this
    order: [Hello, World!], [2 + 3 = 5], [4 * 5 = 20], and the exit status
    is 0. *)
Theorem run_directly_three_lines :
  run_directly =
    ("Hello, World!" ++ newline ++ "2 + 3 = 5" ++ newline
       ++ "4 * 5 = 20" ++ newline, 0) /\
  lines (fst run_directly) = ["Hello, World!"; "2 + 3 = 5"; "4 * 5 = 20"] /\
  List.length (lines (fst run_directly)) = 3%nat.
Proof. repeat split. Qed.

(* ===================================================================== *)
(** * Operands of other classes *)
(* ===================================================================== *)

Lemma quot_ltb_mul (m c l : Z) : 0 < c -> (m / c <? l) = (m <? l * c).
Proof.
  intro Hc.
  pose proof (Z.div_mod m c ltac:(lia)) as Hdm.
  pose proof (Z.mod_pos_bound m c Hc) as Hmod.
  destruct (Z.ltb_spec (m / c) l), (Z.ltb_spec m (l * c));
    try reflexivity; nia.
Qed.

(** Repetition with the count and the length of the result in range. *)
Lemma sequence_repeat_in_range (s : string) (k : Z) (w : world) :
  - maxsize - 1 <= k <= maxsize ->
  Z.of_nat (String.length s) * k <= maxsize ->
  sequence_repeat s k w = (Ok (VStr (repeat_str s (Z.to_nat k))), w).
Proof.
  intros Hk Hlen. unfold sequence_repeat, as_index, bind.
  replace ((- maxsize - 1 <=? k) && (k <=? maxsize)) with true
    by (symmetry; apply andb_true_intro; split; apply Z.leb_le; lia).
  cbn [ret]. unfold unicode_repeat.
  destruct (Z.ltb_spec k 1) as [H1 | H1].
  - replace (Z.to_nat k) with 0%nat by lia. reflexivity.
  - destruct (Z.eqb_spec k 1) as [E | E].
    + subst k. change (Z.to_nat 1) with 1%nat. cbn [repeat_str].
      now rewrite app_empty_r.
    + rewrite quot_ltb_mul by lia.
      destruct (Z.ltb_spec maxsize (Z.of_nat (String.length s) * k));
        [lia | reflexivity].
Qed.

Lemma sequence_repeat_count_out_of_range (s : string) (k : Z) (w : world) :
  k < - maxsize - 1 \/ maxsize < k ->
  sequence_repeat s k w = (Raise OverflowError, w).
Proof.
  intro Hk. unfold sequence_repeat, as_index, bind.
  replace ((- maxsize - 1 <=? k) && (k <=? maxsize)) with false;
    [reflexivity |].
  symmetry. apply andb_false_iff.
  destruct Hk; [left | right]; apply Z.leb_gt; lia.
Qed.

Lemma sequence_repeat_too_long (s : string) (k : Z) (w : world) :
  1 < k <= maxsize ->
  maxsize < Z.of_nat (String.length s) * k ->
  sequence_repeat s k w = (Raise OverflowError, w).
Proof.
  intros Hk Hlen. unfold sequence_repeat, as_index, bind.
  replace ((- maxsize - 1 <=? k) && (k <=? maxsize)) with true
    by (symmetry; apply andb_true_intro; split; apply Z.leb_le;
        unfold maxsize in *; lia).
  cbn [ret]. unfold unicode_repeat.
  destruct (Z.ltb_spec k 1); [lia |].
  destruct (Z.eqb_spec k 1); [lia |].
  rewrite quot_ltb_mul by lia.
  destruct (Z.ltb_spec maxsize (Z.of_nat (String.length s) * k));
    [reflexivity | lia].
Qed.


(** C6, as the code has it: for strings [s] and [t], [add(s, t)] returns
    [s] followed by [t].  For a string [s] and an integer [k] with
    [0 <= k <= sys.maxsize] and [len(s) * k <= sys.maxsize],
    [multiply(s, k)] returns [k] copies of [s] joined with nothing between
    them, of length [k * len(s)].  A count above [sys.maxsize], and a
    count above 1 with [len(s) * k] above [sys.maxsize], end in
    [OverflowError]. *)
Theorem add_str_concat_multiply_str_repeat
  (s t : string) (k : Z) (w : world)
  (Hk : 0 <= k <= maxsize)
  (Hlen : Z.of_nat (String.length s) * k <= maxsize) :
  add (VStr s) (VStr t) w = (Ok (VStr (s ++ t)), w) /\
  multiply (VStr s) (VInt k) w =
    (Ok (VStr (String.concat "" (List.repeat s (Z.to_nat k)))), w) /\
  Z.of_nat (String.length (String.concat "" (List.repeat s (Z.to_nat k))))
    = k * Z.of_nat (String.length s) /\
  (forall k' : Z, maxsize < k' ->
     multiply (VStr s) (VInt k') w = (Raise OverflowError, w)) /\
  (forall k' : Z, 1 < k' <= maxsize ->
     maxsize < Z.of_nat (String.length s) * k' ->
     multiply (VStr s) (VInt k') w = (Raise OverflowError, w)).
Proof.
  split; [reflexivity |].
  rewrite <- repeat_str_concat. split; [| split; [| split]].
  - apply sequence_repeat_in_range; lia.
  - rewrite length_repeat_str. lia.
  - intros k' H. apply sequence_repeat_count_out_of_range. now right.
  - intros k' H1 H2. now apply sequence_repeat_too_long.
Qed.

Lemma add_str_concat_multiply_str_repeat_witness :
  0 <= 3 <= maxsize /\
  Z.of_nat (String.length "ab") * 3 <= maxsize /\
  add (VStr "ab") (VStr "cd") initial_world
    = (Ok (VStr "abcd"), initial_world) /\
  multiply (VStr "ab") (VInt 3) initial_world
    = (Ok (VStr "ababab"), initial_world) /\
  Z.of_nat (String.length "ababab") = 3 * Z.of_nat (String.length "ab") /\
  (forall k' : Z, maxsize < k' ->
     multiply (VStr "ab") (VInt k') initial_world
       = (Raise OverflowError, initial_world)) /\
  (forall k' : Z, 1 < k' <= maxsize ->
     maxsize < Z.of_nat (String.length "ab") * k' ->
     multiply (VStr "ab") (VInt k') initial_world
       = (Raise OverflowError, initial_world)).
Proof.
  split; [vm_compute; split; discriminate |].
  split; [vm_compute; discriminate |].
  apply (add_str_concat_multiply_str_repeat "ab" "cd" 3 initial_world).
  - vm_compute; split; discriminate.
  - vm_compute; discriminate.
Defined.

(** C6, as the claim states it, fails: [2 ** 63] and [2 ** 62] are not
    negative, yet [multiply] of the empty string by the first and of
    ["ab"] by the second raise [OverflowError] instead of returning. *)
Lemma multiply_str_large_count_raises :
  0 <= 2 ^ 63 /\
  multiply (VStr "") (VInt (2 ^ 63)) initial_world
    = (Raise OverflowError, initial_world) /\
  0 <= 2 ^ 62 /\
  multiply (VStr "ab") (VInt (2 ^ 62)) initial_world
    = (Raise OverflowError, initial_world).
Proof.
  split; [vm_compute; discriminate |].
  split; [vm_compute; reflexivity |].
  split; [vm_compute; discriminate |].
  vm_compute; reflexivity.
Qed.



(* ===================================================================== *)
(** * Hidden state *)
(* ===================================================================== *)

Lemma reads_limit_only_greet (v : value) : reads_limit_only (greet v).
Proof.
  unfold greet, fstring.
  apply reads_limit_only_bind;
    [| intro; apply reads_limit_only_pure, pure_ret].
  apply reads_limit_only_joined_str. repeat constructor.
  apply reads_limit_only_pure, pure_ret.
Qed.

(** C10, as the code has it: [add] and [multiply] are deterministic and
    pure: on the same arguments they end with the same outcome in any two
    worlds, and leave the world as they found it.  [greet] leaves the
    world as it found it, and reads from it at most the digit limit: what
    is on standard output does not matter, and for a string, a [bool],
    [None] and an integer whose text has at most 640 characters the
    outcome is the same in any two worlds.  For a longer integer the
    outcome does depend on the digit limit. *)
Theorem add_multiply_pure_greet_reads_limit
  (a b : value) (s : string) (c : bool) (z : Z) (w1 w2 : world) :
  (fst (add a b w1) = fst (add a b w2) /\ snd (add a b w1) = w1) /\
  (fst (multiply a b w1) = fst (multiply a b w2)
   /\ snd (multiply a b w1) = w1) /\
  snd (greet a w1) = w1 /\
  fst (greet a w1)
    = fst (greet a (mkWorld (stdout w2) (int_max_str_digits w1))) /\
  fst (greet (VStr s) w1) = fst (greet (VStr s) w2) /\
  fst (greet (VBool c) w1) = fst (greet (VBool c) w2) /\
  fst (greet VNone w1) = fst (greet VNone w2) /\
  (Z.of_nat (String.length (str (VInt z))) <= str_digits_check_threshold ->
   fst (greet (VInt z) w1) = fst (greet (VInt z) w2)).
Proof.
  split; [split; [apply pure_same_outcome | apply pure_same_world];
          apply pure_binary_add |].
  split; [split; [apply pure_same_outcome | apply pure_same_world];
          apply pure_binary_mul |].
  destruct (reads_limit_only_greet a) as [f Hf].
  split; [now rewrite Hf |].
  split; [now rewrite !Hf |].
  repeat (split; [reflexivity |]).
  intro H. rewrite !greet_run. cbn [str_allowed fst].
  unfold int_str_allowed. apply Z.ltb_ge in H. now rewrite H.
Qed.

(** C10, as the claim states it, fails for [greet]: the same argument,
    [10 ** 4300], ends in [ValueError] in a fresh interpreter and in a
    greeting once the digit limit has been switched off. *)
Lemma greet_depends_on_digit_limit :
  greet (VInt (10 ^ 4300)) (mkWorld "" 4300)
    = (Raise ValueError, mkWorld "" 4300) /\
  greet (VInt (10 ^ 4300)) (mkWorld "" 0)
    = (Ok (VStr ("Hello, " ++ str (VInt (10 ^ 4300)) ++ "!")), mkWorld "" 0).
Proof. split; vm_compute; reflexivity. Qed.

(* ===================================================================== *)
(** * Further facts: strings and repetition *)
(* ===================================================================== *)

Lemma app_assoc_str (s t u : string) : (s ++ t) ++ u = s ++ (t ++ u).
Proof.
  induction s as [| c s IH]; cbn; [reflexivity | now rewrite IH].
Qed.

Lemma app_inv_tail_str (s t u : string) : s ++ u = t ++ u -> s = t.
Proof.
  revert t. induction s as [| c s IH]; intros [| d t] H; cbn in H.
  - reflexivity.
  - apply (f_equal String.length) in H. cbn in H.
    rewrite length_app in H. lia.
  - apply (f_equal String.length) in H. cbn in H.
    rewrite length_app in H. lia.
  - injection H as Hc H. subst d. f_equal. exact (IH t H).
Qed.





(* ===================================================================== *)
(** * The module guard and the tests *)
(* ===================================================================== *)

(** X1: executed under any module name other than ["__main__"] (an
    import, as [test_main.py] does), the module writes nothing and raises
    nothing: the guarded block is skipped. *)
Theorem run_module_other_name_silent (name : string) (w : world)
  (Hname : name <> "__main__") :
  run_module name w = (Ok tt, w).
Proof.
  unfold run_module.
  destruct (String.eqb_spec name "__main__") as [E | _];
    [contradiction | reflexivity].
Qed.

Lemma run_module_other_name_silent_witness :
  "test_main" <> "__main__" /\
  run_module "test_main" (mkWorld "earlier output" 4300)
    = (Ok tt, mkWorld "earlier output" 4300).
Proof.
  split; [discriminate |].
  apply (run_module_other_name_silent
           "test_main" (mkWorld "earlier output" 4300)).
  discriminate.
Defined.

(** X2: executed as the script in any world, the module raises nothing,
    keeps what was on standard output before, and appends exactly the
    three lines after it. *)
Theorem run_module_main_appends (w : world) :
  run_module "__main__" w =
    (Ok tt,
     mkWorld (stdout w ++ "Hello, World!" ++ newline ++ "2 + 3 = 5"
                ++ newline ++ "4 * 5 = 20" ++ newline)
             (int_max_str_digits w)).
Proof.
  unfold run_module, main_block, bind, builtin_print, write; cbn.
  rewrite !app_assoc_str. reflexivity.
Qed.

(** X3: the three test functions of [test_main.py] end without an
    [AssertionError] or any other exception, in any world, and write
    nothing; so does their run one after the other. *)
Theorem test_functions_pass (w : world) :
  test_main.test_add w = (Ok tt, w) /\
  test_main.test_multiply w = (Ok tt, w) /\
  test_main.test_greet w = (Ok tt, w) /\
  (test_main.test_add ;; test_main.test_multiply ;; test_main.test_greet) w
    = (Ok tt, w).
Proof. repeat split. Qed.

(* ===================================================================== *)
(** * Laws over the whole value universe *)
(* ===================================================================== *)

Ltac by_cases_on v := destruct v as [| [|] | ? | ?].

Ltac close_arith :=
  first [ reflexivity
        | do 3 f_equal; lia
        | now rewrite app_assoc_str ].

(** X4: chaining [add] is associative for all values: [add(add(a, b), c)]
    and [add(a, add(b, c))] return the same value, or both end in
    [TypeError]. *)
Theorem add_assoc_all_values (a b c : value) (w : world) :
  (x <- add a b ;; add x c) w = (y <- add b c ;; add a y) w.
Proof.
  unfold add, binary_add, bind, ret, raise.
  by_cases_on a; by_cases_on b; by_cases_on c;
    cbn -[Z.add String.append]; close_arith.
Qed.

(** X5: [multiply] is commutative for all values, not only for integers:
    exchanging the arguments gives the same value (a product, or a
    repeated string whichever side the count is on), or [TypeError] both
    ways. *)
Theorem multiply_comm_all_values (a b : value) (w : world) :
  multiply a b w = multiply b a w.
Proof.
  unfold multiply, binary_mul, ret, raise.
  by_cases_on a; by_cases_on b; cbn [as_int];
    first [ reflexivity | do 3 f_equal; lia ].
Qed.

(** X6: [add] is commutative whenever its arguments are not both strings
    (same sum, or [TypeError] both ways); on two strings the two orders
    agree exactly when the two concatenations are the same string. *)
Theorem add_comm_unless_two_strings (a b : value) (s t : string) (w : world)
  (Hab : is_str a && is_str b = false) :
  add a b w = add b a w /\
  (add (VStr s) (VStr t) w = add (VStr t) (VStr s) w <-> s ++ t = t ++ s).
Proof.
  split.
  - revert Hab. unfold add, binary_add, ret, raise.
    by_cases_on a; by_cases_on b; cbn -[Z.add]; intro H;
      first [ reflexivity | do 3 f_equal; lia | discriminate H ].
  - unfold add, binary_add, ret; cbn. split; intro H.
    + now injection H.
    + now rewrite H.
Qed.

Lemma add_comm_unless_two_strings_witness :
  is_str (VBool true) && is_str (VInt 41) = false /\
  add (VBool true) (VInt 41) initial_world
    = add (VInt 41) (VBool true) initial_world /\
  (add (VStr "ab") (VStr "ba") initial_world
     = add (VStr "ba") (VStr "ab") initial_world
   <-> "ab" ++ "ba" = "ba" ++ "ab").
Proof.
  split; [reflexivity |].
  apply (add_comm_unless_two_strings
           (VBool true) (VInt 41) "ab" "ba" initial_world).
  reflexivity.
Defined.

(* ===================================================================== *)
(** * Laws on integers *)
(* ===================================================================== *)

Section IntegerLaws.

Variables a b c : Z.
Variable w : world.

(** X7: on integers [multiply] distributes over [add], on either side:
    [multiply(a, add(b, c))] equals
    [add(multiply(a, b), multiply(a, c))], and likewise with the sum on
    the left. *)
Theorem multiply_distributes_over_add :
  (s <- add (VInt b) (VInt c) ;; multiply (VInt a) s) w =
  (p <- multiply (VInt a) (VInt b) ;; q <- multiply (VInt a) (VInt c) ;;
   add p q) w /\
  (s <- add (VInt a) (VInt b) ;; multiply s (VInt c)) w =
  (p <- multiply (VInt a) (VInt c) ;; q <- multiply (VInt b) (VInt c) ;;
   add p q) w.
Proof.
  unfold add, multiply, binary_add, binary_mul, bind, ret;
    cbn -[Z.add Z.mul].
  split; do 3 f_equal; lia.
Qed.

(** X8: on integers chained [multiply] is associative, 1 is neutral on
    both sides, and 0 absorbs on the right as well as on the left. *)
Theorem multiply_int_assoc_one_zero :
  (x <- multiply (VInt a) (VInt b) ;; multiply x (VInt c)) w =
  (y <- multiply (VInt b) (VInt c) ;; multiply (VInt a) y) w /\
  multiply (VInt a) (VInt 1) w = (Ok (VInt a), w) /\
  multiply (VInt 1) (VInt a) w = (Ok (VInt a), w) /\
  multiply (VInt a) (VInt 0) w = (Ok (VInt 0), w).
Proof.
  unfold multiply, binary_mul, bind, ret; cbn -[Z.mul].
  repeat split; do 3 f_equal; lia.
Qed.

(** X9: signs: [add(a, -a)] is 0, [multiply(-a, b)] and [multiply(a, -b)]
    are the negated product, [multiply(-a, -b)] is the product, and
    [multiply(-1, a)] is [-a]. *)
Theorem add_multiply_int_signs :
  add (VInt a) (VInt (- a)) w = (Ok (VInt 0), w) /\
  multiply (VInt (- a)) (VInt b) w = (Ok (VInt (- (a * b))), w) /\
  multiply (VInt a) (VInt (- b)) w = (Ok (VInt (- (a * b))), w) /\
  multiply (VInt (- a)) (VInt (- b)) w = multiply (VInt a) (VInt b) w /\
  multiply (VInt (-1)) (VInt a) w = (Ok (VInt (- a)), w).
Proof.
  unfold add, multiply, binary_add, binary_mul, ret;
    cbn -[Z.add Z.mul Z.opp].
  repeat split; do 3 f_equal; lia.
Qed.

End IntegerLaws.

(** X10: numbers stay numbers: when both arguments are numbers (integers
    or booleans), [add] and [multiply] return an [int], never a [bool],
    a string or [None], and never raise; booleans count as 0 and 1. *)
Theorem numeric_operands_give_int (a b : value) (w : world)
  (Ha : is_numeric a = true) (Hb : is_numeric b = true) :
  exists x y : Z,
    as_int a = Some x /\ as_int b = Some y /\
    add a b w = (Ok (VInt (x + y)), w) /\
    multiply a b w = (Ok (VInt (x * y)), w).
Proof.
  unfold is_numeric in Ha, Hb. unfold add, multiply, binary_add, binary_mul.
  destruct (as_int a) as [x |]; [| discriminate Ha].
  destruct (as_int b) as [y |]; [| discriminate Hb].
  exists x, y. repeat split.
Qed.

Lemma numeric_operands_give_int_witness :
  is_numeric (VBool true) = true /\ is_numeric (VBool true) = true /\
  exists x y : Z,
    as_int (VBool true) = Some x /\ as_int (VBool true) = Some y /\
    add (VBool true) (VBool true) initial_world
      = (Ok (VInt (x + y)), initial_world) /\
    multiply (VBool true) (VBool true) initial_world
      = (Ok (VInt (x * y)), initial_world).
Proof.
  split; [reflexivity |]. split; [reflexivity |].
  apply (numeric_operands_give_int (VBool true) (VBool true) initial_world);
    reflexivity.
Defined.

(* ===================================================================== *)
(** * Repetition counts *)
(* ===================================================================== *)



(** X11: a repetition count from [-sys.maxsize - 1] to 0 gives the empty
    string, whichever side the count is on, and raises nothing; a count
    below [-sys.maxsize - 1] ends in [OverflowError]. *)
Theorem multiply_str_nonpositive_count (s : string) (k : Z) (w : world)
  (Hk : - maxsize - 1 <= k <= 0) :
  multiply (VStr s) (VInt k) w = (Ok (VStr ""), w) /\
  multiply (VInt k) (VStr s) w = (Ok (VStr ""), w) /\
  (forall k' : Z, k' < - maxsize - 1 ->
     multiply (VStr s) (VInt k') w = (Raise OverflowError, w) /\
     multiply (VInt k') (VStr s) w = (Raise OverflowError, w)).
Proof.
  assert (H : sequence_repeat s k w = (Ok (VStr ""), w)).
  { rewrite sequence_repeat_in_range.
    - replace (Z.to_nat k) with 0%nat by lia. reflexivity.
    - unfold maxsize in *. lia.
    - unfold maxsize in *. nia. }
  split; [exact H |]. split; [exact H |].
  intros k' Hk'.
  split; apply sequence_repeat_count_out_of_range; now left.
Qed.

Lemma multiply_str_nonpositive_count_witness :
  - maxsize - 1 <= -2 <= 0 /\
  multiply (VStr "ab") (VInt (-2)) initial_world
    = (Ok (VStr ""), initial_world) /\
  multiply (VInt (-2)) (VStr "ab") initial_world
    = (Ok (VStr ""), initial_world) /\
  (forall k' : Z, k' < - maxsize - 1 ->
     multiply (VStr "ab") (VInt k') initial_world
       = (Raise OverflowError, initial_world) /\
     multiply (VInt k') (VStr "ab") initial_world
       = (Raise OverflowError, initial_world)).
Proof.
  split; [vm_compute; split; discriminate |].
  apply (multiply_str_nonpositive_count "ab" (-2) initial_world).
  vm_compute; split; discriminate.
Defined.





(* ===================================================================== *)
(** * What a greeting tells about its argument *)
(* ===================================================================== *)

Lemma str_int_inj (a b : Z) : str (VInt a) = str (VInt b) -> a = b.
Proof.
  intro H. pose proof (str_int_reads_back a) as Ha.
  rewrite H, str_int_reads_back in Ha. now injection Ha.
Qed.

(** X14: for two values that the digit limit lets [str()] convert (any
    string, [bool] or [None], and any integer short enough), the greetings
    are equal exactly when the texts of the values are equal; so such a
    value and its own text are greeted alike (the integer 42 and the
    string ["42"]), and the class of the argument cannot be told from the
    greeting. *)
Theorem greet_eq_iff_str_eq (u v : value) (w : world)
  (Hu : str_allowed (int_max_str_digits w) u = true)
  (Hv : str_allowed (int_max_str_digits w) v = true) :
  (greet u w = greet v w <-> str u = str v) /\
  greet v w = greet (VStr (str v)) w.
Proof.
  rewrite !greet_run, Hu, Hv. cbn [str_allowed str]. split; [| reflexivity].
  split; intro H.
  - injection H as H. exact (app_inv_tail_str _ _ _ H).
  - now rewrite H.
Qed.

Lemma greet_eq_iff_str_eq_witness :
  str_allowed (int_max_str_digits initial_world) (VInt 42) = true /\
  str_allowed (int_max_str_digits initial_world) (VStr "42") = true /\
  (greet (VInt 42) initial_world = greet (VStr "42") initial_world
   <-> str (VInt 42) = str (VStr "42")) /\
  greet (VStr "42") initial_world
    = greet (VStr (str (VStr "42"))) initial_world.
Proof.
  split; [reflexivity |]. split; [reflexivity |].
  apply (greet_eq_iff_str_eq (VInt 42) (VStr "42") initial_world);
    reflexivity.
Defined.

(** X15: the name can be told from the greeting: two strings are greeted
    alike only when they are the same string; two integers are greeted
    alike only when they are the same integer, or when both are too long
    for the digit limit and both calls end in [ValueError]. *)
Theorem greet_injective_on_str_and_int (m n : string) (a b : Z) (w : world) :
  (greet (VStr m) w = greet (VStr n) w <-> m = n) /\
  (greet (VInt a) w = greet (VInt b) w <->
     a = b \/
     (int_str_allowed (int_max_str_digits w) a = false /\
      int_str_allowed (int_max_str_digits w) b = false)) /\
  (int_str_allowed (int_max_str_digits w) a = false ->
   greet (VInt a) w = (Raise ValueError, w)).
Proof.
  rewrite !greet_run. cbn [str_allowed str]. split; [| split].
  - split; intro H; [| now subst].
    injection H as H. exact (app_inv_tail_str _ _ _ H).
  - destruct (int_str_allowed (int_max_str_digits w) a) eqn:Ea,
             (int_str_allowed (int_max_str_digits w) b) eqn:Eb.
    + split; intro H.
      * left. injection H as H. apply app_inv_tail_str in H.
        exact (str_int_inj a b H).
      * destruct H as [H | [H _]]; [now subst | discriminate H].
    + split; intro H; [discriminate H |].
      destruct H as [H | [H _]]; [| discriminate H].
      subst b. rewrite Ea in Eb. discriminate Eb.
    + split; intro H; [discriminate H |].
      destruct H as [H | [_ H]]; [| discriminate H].
      subst b. rewrite Ea in Eb. discriminate Eb.
    + split; intro H; [now right | reflexivity].
  - intro H. now rewrite H.
Qed.
